(** * Job lifecycle reducer of the LiberTEM client

    Shallow embedding of [client/src/job/reducers.ts] and of the pieces of
    the client it is built on, followed by the properties of the job
    lifecycle that the specification states.

    JavaScript objects used as dictionaries ([byId]) are finite maps with
    string keys; arrays ([ids], [results]) are lists; an optional field
    ([endTimestamp?]) is an [option].  The reducer never inspects a
    timestamp or a result artifact, it only copies them, so both types are
    parameters of the development. *)

From stdpp Require Import gmap strings list fin_maps.
From Stdlib Require Import ZArith.

Local Open Scope string_scope.

(** ** Types of [job/types.ts] *)

(** Modelled from the spec: the enum [JobRunning] of [job/types.ts], whose
    declaration is missing ("running: enum {CREATING, RUNNING,
    DONE}"). *)
Module JobRunning.
Inductive t : Set := CREATING | RUNNING | DONE.

#[global] Instance eq_dec : EqDecision t.
Proof. solve_decision. Defined.
End JobRunning.

(** Modelled from the spec: the enum [JobStatus] of [job/types.ts] ("status:
    enum {CREATING, IN_PROGRESS, SUCCESS, ERROR}"). *)
Module JobStatus.
Inductive t : Set := CREATING | IN_PROGRESS | SUCCESS | ERROR.

#[global] Instance eq_dec : EqDecision t.
Proof. solve_decision. Defined.
End JobStatus.

(** Modelled from the spec: the interface [JobState] of [job/types.ts].  The
    fields are those the reducer writes; [endTimestamp] is the only one a
    freshly created job lacks, hence the only optional one. *)
Module JobState.
Record t {Timestamp Result : Type} : Type := mk {
  id : string;
  dataset : string;
  running : JobRunning.t;
  status : JobStatus.t;
  results : list Result;
  startTimestamp : Timestamp;
  endTimestamp : option Timestamp;
}.
Arguments t : clear implicits.
Arguments mk {Timestamp Result}.
End JobState.

(** [Partial<JobState>]: every field of [JobState] may be left out of the
    object literal; [None] is a key that the literal does not have. *)
Module PartialJobState.
Record t {Timestamp Result : Type} : Type := mk {
  id : option string;
  dataset : option string;
  running : option JobRunning.t;
  status : option JobStatus.t;
  results : option (list Result);
  startTimestamp : option Timestamp;
  endTimestamp : option Timestamp;
}.
Arguments t : clear implicits.
Arguments mk {Timestamp Result}.
End PartialJobState.

(** ** [helpers/reducerHelpers.ts] *)

(** Modelled from the spec: the generic store [ById<R>] of
    [helpers/reducerHelpers.ts] ("byId: mapping from id to entity", "ids:
    ordered sequence of ids"). *)
Record ById {R : Type} : Type := mkById {
  byId : gmap string R;
  ids : list string;
}.
Arguments ById : clear implicits.
Arguments mkById {R}.

(** [Object.assign({}, record, partialRecord)]: a copy of [record] in which
    the keys that [partialRecord] has are overwritten.  [updateById] is
    generic in the record type; this class is what it needs of it. *)
Class Assign (R P : Type) := assign : R → P → R.

(** Modelled from the spec: [insertById] of [helpers/reducerHelpers.ts] ("if
    id already present, returns state unchanged ...  Otherwise appends id to
    ids and sets byId[id] = entity"). *)
Definition insertById {R : Type} (state : ById R) (id : string) (record : R) : ById R :=
  match byId state !! id with
  | Some _ => state
  | None => {| byId := <[id := record]> (byId state); ids := ids state ++ [id] |}
  end.

(** Modelled from the spec: [updateById] of [helpers/reducerHelpers.ts] ("if
    id is absent, returns state unchanged ...  Otherwise produces a new
    entity equal to the old entity with partialFields shallow-merged on top,
    and a new store with that entity substituted at the same position in
    ids"). *)
Definition updateById {R P : Type} `{!Assign R P}
    (state : ById R) (id : string) (partialRecord : P) : ById R :=
  match byId state !! id with
  | None => state
  | Some old => {| byId := <[id := assign old partialRecord]> (byId state); ids := ids state |}
  end.

(** A store in which [ids] lists the keys of [byId], each once. *)
Definition wellFormed {R : Type} (state : ById R) : Prop :=
  NoDup (ids state) ∧ ∀ id, id ∈ ids state ↔ is_Some (byId state !! id).

Section Reducer.
Context {Timestamp Result : Type}.

Local Abbreviation Job := (JobState.t Timestamp Result).
Local Abbreviation PartialJob := (PartialJobState.t Timestamp Result).

(** The shallow merge on jobs, field by field. *)
#[global] Instance assignJob : Assign Job PartialJob := λ old p,
  {| JobState.id := default (JobState.id old) (PartialJobState.id p);
     JobState.dataset := default (JobState.dataset old) (PartialJobState.dataset p);
     JobState.running := default (JobState.running old) (PartialJobState.running p);
     JobState.status := default (JobState.status old) (PartialJobState.status p);
     JobState.results := default (JobState.results old) (PartialJobState.results p);
     JobState.startTimestamp :=
       default (JobState.startTimestamp old) (PartialJobState.startTimestamp p);
     JobState.endTimestamp :=
       match PartialJobState.endTimestamp p with
       | Some t => Some t
       | None => JobState.endTimestamp old
       end |}.

(** ** [job/reducers.ts] *)

(** The actions the reducer can be handed.  The payloads are those the
    reducer reads; [OTHER] stands for the members of [AllActions] that have
    no case in the [switch], with their [type] tag. *)
Inductive AllActions : Type :=
  | CREATE (id dataset : string) (timestamp : Timestamp)
  | JOB_STARTED (job : string) (timestamp : Timestamp)
  | TASK_RESULT (job : string) (results : list Result)
  | FINISH_JOB (job : string) (timestamp : Timestamp) (results : list Result)
  | JOB_ERROR (job : string) (timestamp : Timestamp)
  | OTHER (type : string).

Definition JobReducerState : Type := ById Job.

Definition initialJobState : JobReducerState :=
  {| byId := ∅; ids := [] |}.

(** [state = initialJobState] in the parameter list: [None] is a call with
    [undefined] for the state. *)
Definition jobReducer (state : option JobReducerState) (action : AllActions)
    : JobReducerState :=
  let state := default initialJobState state in
  match action with
  | CREATE id dataset timestamp =>
      let createResult :=
        insertById state id
          {| JobState.id := id;
             JobState.dataset := dataset;
             JobState.running := JobRunning.CREATING;
             JobState.status := JobStatus.CREATING;
             JobState.results := [];
             JobState.startTimestamp := timestamp;
             JobState.endTimestamp := None |} in
      createResult
  | JOB_STARTED job timestamp =>
      updateById state job
        {| PartialJobState.id := None;
           PartialJobState.dataset := None;
           PartialJobState.running := Some JobRunning.RUNNING;
           PartialJobState.status := Some JobStatus.IN_PROGRESS;
           PartialJobState.results := None;
           PartialJobState.startTimestamp := Some timestamp;
           PartialJobState.endTimestamp := None |}
  | TASK_RESULT job results =>
      updateById state job
        {| PartialJobState.id := None;
           PartialJobState.dataset := None;
           PartialJobState.running := None;
           PartialJobState.status := None;
           PartialJobState.results := Some results;
           PartialJobState.startTimestamp := None;
           PartialJobState.endTimestamp := None |}
  | FINISH_JOB job timestamp results =>
      updateById state job
        {| PartialJobState.id := None;
           PartialJobState.dataset := None;
           PartialJobState.running := Some JobRunning.DONE;
           PartialJobState.status := Some JobStatus.SUCCESS;
           PartialJobState.results := Some results;
           PartialJobState.startTimestamp := None;
           PartialJobState.endTimestamp := Some timestamp |}
  | JOB_ERROR job timestamp =>
      updateById state job
        {| PartialJobState.id := None;
           PartialJobState.dataset := None;
           PartialJobState.running := Some JobRunning.DONE;
           PartialJobState.status := Some JobStatus.ERROR;
           PartialJobState.results := None;
           PartialJobState.startTimestamp := None;
           PartialJobState.endTimestamp := Some timestamp |}
  | OTHER _ => state
  end.

(** ** The store driven by a stream of actions *)

(** One dispatch on a store that exists. *)
Definition dispatch (state : JobReducerState) (action : AllActions) : JobReducerState :=
  jobReducer (Some state) action.

(** Actions applied in the order of the list. *)
Definition dispatchAll (state : JobReducerState) (actions : list AllActions)
    : JobReducerState :=
  foldl dispatch state actions.

(** The five events the reducer has a case for. *)
Definition recognized (action : AllActions) : bool :=
  match action with
  | OTHER _ => false
  | _ => true
  end.

(** The job an action names: the [id] of a [CREATE], the [job] of a
    lifecycle event. *)
Definition target (action : AllActions) : option string :=
  match action with
  | CREATE id _ _ => Some id
  | JOB_STARTED job _ | TASK_RESULT job _ | FINISH_JOB job _ _ | JOB_ERROR job _ => Some job
  | OTHER _ => None
  end.

(** The id that a [CREATE] hands to [insertById]. *)
Definition createdId (action : AllActions) : option string :=
  match action with
  | CREATE id _ _ => Some id
  | _ => None
  end.

(** The four lifecycle events, which go through [updateById]. *)
Definition lifecycle (action : AllActions) : bool :=
  match action with
  | JOB_STARTED _ _ | TASK_RESULT _ _ | FINISH_JOB _ _ _ | JOB_ERROR _ _ => true
  | CREATE _ _ _ | OTHER _ => false
  end.

(** The events that carry an [endTimestamp]. *)
Definition terminal (action : AllActions) : bool :=
  match action with
  | FINISH_JOB _ _ _ | JOB_ERROR _ _ => true
  | _ => false
  end.

(** [action] is a terminal event for job [j]. *)
Definition terminal_for (j : string) (action : AllActions) : bool :=
  terminal action && bool_decide (target action = Some j).

(** The [timestamp] of the payload, for the events that have one. *)
Definition timestampOf (action : AllActions) : option Timestamp :=
  match action with
  | CREATE _ _ timestamp | JOB_STARTED _ timestamp
  | FINISH_JOB _ timestamp _ | JOB_ERROR _ timestamp => Some timestamp
  | TASK_RESULT _ _ | OTHER _ => None
  end.

(** The pairs of [running] and [status] that the lifecycle allows. *)
Definition consistent (r : JobRunning.t) (s : JobStatus.t) : bool :=
  match r, s with
  | JobRunning.CREATING, JobStatus.CREATING
  | JobRunning.RUNNING, JobStatus.IN_PROGRESS
  | JobRunning.DONE, JobStatus.SUCCESS
  | JobRunning.DONE, JobStatus.ERROR => true
  | _, _ => false
  end.

(** The job that [CREATE] inserts. *)
Definition createdJob (id dataset : string) (timestamp : Timestamp) : Job :=
  {| JobState.id := id;
     JobState.dataset := dataset;
     JobState.running := JobRunning.CREATING;
     JobState.status := JobStatus.CREATING;
     JobState.results := [];
     JobState.startTimestamp := timestamp;
     JobState.endTimestamp := None |}.

(** What a lifecycle event makes of the job it names, once the partial
    record of its case is merged into the old job. *)
Definition updatedJob (action : AllActions) (old : Job) : Job :=
  match action with
  | JOB_STARTED _ timestamp =>
      {| JobState.id := JobState.id old;
         JobState.dataset := JobState.dataset old;
         JobState.running := JobRunning.RUNNING;
         JobState.status := JobStatus.IN_PROGRESS;
         JobState.results := JobState.results old;
         JobState.startTimestamp := timestamp;
         JobState.endTimestamp := JobState.endTimestamp old |}
  | TASK_RESULT _ results =>
      {| JobState.id := JobState.id old;
         JobState.dataset := JobState.dataset old;
         JobState.running := JobState.running old;
         JobState.status := JobState.status old;
         JobState.results := results;
         JobState.startTimestamp := JobState.startTimestamp old;
         JobState.endTimestamp := JobState.endTimestamp old |}
  | FINISH_JOB _ timestamp results =>
      {| JobState.id := JobState.id old;
         JobState.dataset := JobState.dataset old;
         JobState.running := JobRunning.DONE;
         JobState.status := JobStatus.SUCCESS;
         JobState.results := results;
         JobState.startTimestamp := JobState.startTimestamp old;
         JobState.endTimestamp := Some timestamp |}
  | JOB_ERROR _ timestamp =>
      {| JobState.id := JobState.id old;
         JobState.dataset := JobState.dataset old;
         JobState.running := JobRunning.DONE;
         JobState.status := JobStatus.ERROR;
         JobState.results := JobState.results old;
         JobState.startTimestamp := JobState.startTimestamp old;
         JobState.endTimestamp := Some timestamp |}
  | CREATE _ _ _ | OTHER _ => old
  end.

(** What holds of one job in every store that the events can build:
    [running] and [status] agree, a finished job has its [endTimestamp], a
    job that has not started has none. *)
Definition lifecycle_ok (job : Job) : Prop :=
  consistent (JobState.running job) (JobState.status job) = true
  ∧ (JobState.running job = JobRunning.DONE → is_Some (JobState.endTimestamp job))
  ∧ (JobState.running job = JobRunning.CREATING → JobState.endTimestamp job = None).

End Reducer.

Arguments AllActions : clear implicits.
Arguments JobReducerState : clear implicits.

(** ** Concrete runs

    Timestamps as integers and result artifacts as their names, for the
    scenarios of the specification. *)

Definition scenarioA : list (AllActions Z string) :=
  [CREATE "j1" "d1" 100%Z].

Definition scenarioB : list (AllActions Z string) :=
  scenarioA ++ [JOB_STARTED "j1" 105%Z].

Definition scenarioC : list (AllActions Z string) :=
  scenarioB ++ [TASK_RESULT "j1" ["r1"]; TASK_RESULT "j1" ["r1"; "r2"]].

Definition scenarioD : list (AllActions Z string) :=
  scenarioC ++ [FINISH_JOB "j1" 200%Z ["r1"; "r2"; "r3"]].

(** A [JOB_STARTED] that arrives after the job has finished. *)
Definition lateStart : list (AllActions Z string) :=
  scenarioD ++ [JOB_STARTED "j1" 300%Z].

(** The job of scenario C, as an object literal. *)
Definition jobC : JobState.t Z string :=
  {| JobState.id := "j1";
     JobState.dataset := "d1";
     JobState.running := JobRunning.RUNNING;
     JobState.status := JobStatus.IN_PROGRESS;
     JobState.results := ["r1"; "r2"];
     JobState.startTimestamp := 105%Z;
     JobState.endTimestamp := None |}.

(** The job after [lateStart]: running again, with the [endTimestamp] of
    scenario D still there. *)
Definition jobLate : JobState.t Z string :=
  {| JobState.id := "j1";
     JobState.dataset := "d1";
     JobState.running := JobRunning.RUNNING;
     JobState.status := JobStatus.IN_PROGRESS;
     JobState.results := ["r1"; "r2"; "r3"];
     JobState.startTimestamp := 300%Z;
     JobState.endTimestamp := Some 200%Z |}.

(** The whole life of a second job, and an action of another reducer. *)
Definition secondJob : list (AllActions Z string) :=
  [CREATE "j2" "d2" 101%Z; JOB_STARTED "j2" 102%Z; TASK_RESULT "j2" ["s1"];
   OTHER "DATASET_CREATE"; FINISH_JOB "j2" 103%Z ["s1"; "s2"]; JOB_ERROR "j3" 104%Z].

(** What follows the [CREATE] of scenario A in [lateStart], and a second
    [CREATE] of the same id at the end. *)
Definition restOfLife : list (AllActions Z string) :=
  [JOB_STARTED "j1" 105%Z; TASK_RESULT "j1" ["r1"]; TASK_RESULT "j1" ["r1"; "r2"];
   FINISH_JOB "j1" 200%Z ["r1"; "r2"; "r3"]; JOB_STARTED "j1" 300%Z;
   CREATE "j1" "d9" 900%Z].

(** The job of scenario D, as an object literal. *)
Definition jobD : JobState.t Z string :=
  {| JobState.id := "j1";
     JobState.dataset := "d1";
     JobState.running := JobRunning.DONE;
     JobState.status := JobStatus.SUCCESS;
     JobState.results := ["r1"; "r2"; "r3"];
     JobState.startTimestamp := 105%Z;
     JobState.endTimestamp := Some 200%Z |}.

(** The store of scenario D. *)
Definition storeD : JobReducerState Z string :=
  {| byId := {[ "j1" := jobD ]}; ids := ["j1"] |}.

(** ** Lookups in the store after one call of a helper *)

Section Helpers.
Context {R P : Type} `{!Assign R P}.
Implicit Types (state : ById R) (id k : string).

Lemma insertById_lookup state id (record : R) k :
  byId (insertById state id record) !! k =
    if decide (id = k) then Some (default record (byId state !! id))
    else byId state !! k.
Proof.
  unfold insertById.
  destruct (byId state !! id) as [old|] eqn:Hid; simpl.
  - case_decide; [by subst | done].
  - by rewrite lookup_insert.
Qed.

Lemma insertById_present state id (record : R) :
  is_Some (byId state !! id) → insertById state id record = state.
Proof. intros [old Hold]. unfold insertById. by rewrite Hold. Qed.

Lemma updateById_lookup state id (partialRecord : P) k :
  byId (updateById state id partialRecord) !! k =
    if decide (id = k) then (λ old, assign old partialRecord) <$> byId state !! id
    else byId state !! k.
Proof.
  unfold updateById.
  destruct (byId state !! id) as [old|] eqn:Hid; simpl.
  - by rewrite lookup_insert.
  - case_decide; [by subst | done].
Qed.

Lemma updateById_absent state id (partialRecord : P) :
  byId state !! id = None → updateById state id partialRecord = state.
Proof. intros Hid. unfold updateById. by rewrite Hid. Qed.

Lemma updateById_ids state id (partialRecord : P) :
  ids (updateById state id partialRecord) = ids state.
Proof. unfold updateById. by destruct (byId state !! id). Qed.

End Helpers.

(** ** One dispatch, seen from one job *)

Section Properties.
Context {Timestamp Result : Type}.

Local Abbreviation Job := (JobState.t Timestamp Result).
Implicit Types (state : JobReducerState Timestamp Result).
Implicit Types (action : AllActions Timestamp Result).
Implicit Types (actions : list (AllActions Timestamp Result)).
Implicit Types (job old : Job) (j id : string).

Ltac reducer_cases action :=
  destruct action; unfold dispatch, jobReducer; simpl;
  rewrite ?insertById_lookup, ?updateById_lookup.

(** The job at [j] after a dispatch, from the job at [j] before it. *)
Lemma dispatch_lookup state action j :
  byId (dispatch state action) !! j =
    if decide (target action = Some j) then
      match action with
      | CREATE id dataset timestamp =>
          Some (default (createdJob id dataset timestamp) (byId state !! j))
      | _ => updatedJob action <$> byId state !! j
      end
    else byId state !! j.
Proof.
  reducer_cases action; repeat case_decide; simplify_eq; try done.
  all: by destruct (byId state !! j).
Qed.

Lemma dispatch_lookup_ne state action j :
  target action ≠ Some j → byId (dispatch state action) !! j = byId state !! j.
Proof. intros Hne. rewrite dispatch_lookup. by case_decide. Qed.

Lemma dispatchAll_app state actions1 actions2 :
  dispatchAll state (actions1 ++ actions2) =
    dispatchAll (dispatchAll state actions1) actions2.
Proof. apply foldl_app. Qed.

Lemma dispatch_lifecycle_ok state action :
  (∀ j job, byId state !! j = Some job → lifecycle_ok job) →
  ∀ j job, byId (dispatch state action) !! j = Some job → lifecycle_ok job.
Proof.
  intros Hinv j job. rewrite dispatch_lookup.
  case_decide as Htarget; [|apply Hinv].
  destruct (byId state !! j) as [old|] eqn:Hold.
  - destruct (Hinv j old Hold) as (Hpair & Hdone & Hnew).
    destruct action; simpl; intros [= <-]; try discriminate Htarget;
      repeat split; simpl; try done; eauto.
  - destruct action; simpl; intros [= <-]; repeat split; simpl; done.
Qed.

Lemma dispatchAll_lifecycle_ok actions : ∀ state,
  (∀ j job, byId state !! j = Some job → lifecycle_ok job) →
  ∀ j job, byId (dispatchAll state actions) !! j = Some job → lifecycle_ok job.
Proof.
  induction actions as [|action actions IH]; intros state Hinv; [exact Hinv|].
  simpl. apply IH. by apply dispatch_lifecycle_ok.
Qed.

Lemma initial_lifecycle_ok j job :
  byId (@initialJobState Timestamp Result) !! j = Some job → lifecycle_ok job.
Proof. simpl. by rewrite lookup_empty. Qed.

Lemma dispatchAll_lookup_ne actions j : ∀ state,
  Forall (λ action, target action ≠ Some j) actions →
  byId (dispatchAll state actions) !! j = byId state !! j.
Proof.
  induction actions as [|action actions IH]; intros state Hnames; [done|].
  inversion_clear Hnames as [|? ? Hhead Htail]. simpl.
  rewrite IH by done. by apply dispatch_lookup_ne.
Qed.

(** An event that is not a terminal event for [j] leaves the
    [endTimestamp] of the job at [j] as it is, and a job it creates has
    none. *)
Lemma dispatch_not_terminal state action j job :
  ¬ terminal_for j action →
  byId (dispatch state action) !! j = Some job →
  (∃ old, byId state !! j = Some old
          ∧ JobState.endTimestamp job = JobState.endTimestamp old)
  ∨ (byId state !! j = None ∧ JobState.endTimestamp job = None).
Proof.
  intros Hterm. rewrite dispatch_lookup. unfold terminal_for in Hterm.
  case_decide as Htarget; [|by eauto].
  destruct (byId state !! j) as [old|] eqn:Hold.
  - destruct action; simpl in *; intros [= <-]; try (by left; eauto).
    all: exfalso; apply Hterm; by apply bool_decide_pack.
  - destruct action; simpl in *; intros [= <-]. by right.
Qed.

(** Jobs are never removed. *)
Lemma dispatch_lookup_is_Some state action j :
  is_Some (byId state !! j) → is_Some (byId (dispatch state action) !! j).
Proof.
  intros [old Hold]. rewrite dispatch_lookup, Hold.
  case_decide; [|by eauto]. destruct action; simpl; eauto.
Qed.

Lemma dispatchAll_not_terminal actions j : ∀ state,
  Forall (λ action, ¬ terminal_for j action) actions →
  (∀ job, byId state !! j = Some job → JobState.endTimestamp job = None) →
  ∀ job, byId (dispatchAll state actions) !! j = Some job →
         JobState.endTimestamp job = None.
Proof.
  induction actions as [|action actions IH]; intros state Hnames Hnone; [exact Hnone|].
  inversion_clear Hnames as [|? ? Hhead Htail]. simpl. apply IH; [done|].
  intros job Hjob.
  destruct (dispatch_not_terminal _ _ _ _ Hhead Hjob) as [(old & Hold & ->)|[_ ->]];
    [by apply Hnone in Hold | done].
Qed.

(** ** The lifecycle invariants *)

(** C1, as the code has it: in every state reached from the initial empty
    store by the five recognized events, a job whose [running] field is
    [DONE] has its [endTimestamp], and a job whose [running] field is
    [CREATING] has none.  A [RUNNING] job may have either: a [JOB_STARTED]
    that arrives after a terminal event leaves the [endTimestamp] in
    place. *)
Theorem endTimestamp_of_running actions j job :
  Forall recognized actions →
  byId (dispatchAll initialJobState actions) !! j = Some job →
  (JobState.running job = JobRunning.DONE → is_Some (JobState.endTimestamp job))
  ∧ (JobState.running job = JobRunning.CREATING → JobState.endTimestamp job = None).
Proof.
  intros _ Hjob.
  apply (dispatchAll_lifecycle_ok actions initialJobState initial_lifecycle_ok)
    in Hjob as (_ & Hdone & Hnew).
  by split.
Qed.

(** C2: in every state reached from the initial empty store by the five
    recognized events, the pair of [running] and [status] of every job is
    one of (CREATING, CREATING), (RUNNING, IN_PROGRESS), (DONE, SUCCESS) and
    (DONE, ERROR). *)
Theorem running_status_pairs actions j job :
  Forall recognized actions →
  byId (dispatchAll initialJobState actions) !! j = Some job →
  (JobState.running job, JobState.status job) = (JobRunning.CREATING, JobStatus.CREATING)
  ∨ (JobState.running job, JobState.status job) = (JobRunning.RUNNING, JobStatus.IN_PROGRESS)
  ∨ (JobState.running job, JobState.status job) = (JobRunning.DONE, JobStatus.SUCCESS)
  ∨ (JobState.running job, JobState.status job) = (JobRunning.DONE, JobStatus.ERROR).
Proof.
  intros _ Hjob.
  apply (dispatchAll_lifecycle_ok actions initialJobState initial_lifecycle_ok)
    in Hjob as (Hpair & _).
  destruct (JobState.running job), (JobState.status job);
    first [discriminate Hpair | tauto].
Qed.

(** ** The effect of each event *)

(** C3: on a state that has a job at [j], [TASK_RESULT] makes the results of
    that job the results of the payload and leaves [running] and [status] as
    they were; after a second [TASK_RESULT] for [j] the results are those of
    the second payload. *)
Theorem TASK_RESULT_replaces state j job (rs rs' : list Result) :
  byId state !! j = Some job →
  (∃ job1, byId (dispatch state (TASK_RESULT j rs)) !! j = Some job1
           ∧ JobState.results job1 = rs
           ∧ JobState.running job1 = JobState.running job
           ∧ JobState.status job1 = JobState.status job)
  ∧ (∃ job2, byId (dispatch (dispatch state (TASK_RESULT j rs)) (TASK_RESULT j rs')) !! j
               = Some job2
             ∧ JobState.results job2 = rs'
             ∧ JobState.running job2 = JobState.running job
             ∧ JobState.status job2 = JobState.status job).
Proof.
  intros Hjob. split.
  - rewrite dispatch_lookup, Hjob. simpl. rewrite decide_True by done. eauto.
  - rewrite !dispatch_lookup, Hjob. simpl. rewrite !decide_True by done. simpl. eauto.
Qed.

(** C4: a second [CREATE] with the id of a first one changes nothing,
    whatever the two payloads are; and a [CREATE] whose id the state already
    has returns the state as it is, the job and [ids] included. *)
Theorem CREATE_twice state id (dataset1 dataset2 : string) (timestamp1 timestamp2 : Timestamp) :
  dispatch (dispatch state (CREATE id dataset1 timestamp1)) (CREATE id dataset2 timestamp2)
    = dispatch state (CREATE id dataset1 timestamp1)
  ∧ (∀ job, byId state !! id = Some job →
       dispatch state (CREATE id dataset2 timestamp2) = state).
Proof.
  split.
  - assert (is_Some (byId (dispatch state (CREATE id dataset1 timestamp1)) !! id))
      as Hpresent.
    { rewrite dispatch_lookup. simpl. rewrite decide_True by done. eauto. }
    revert Hpresent. generalize (dispatch state (CREATE id dataset1 timestamp1)).
    intros state1 Hpresent. unfold dispatch. simpl. by apply insertById_present.
  - intros job Hjob. unfold dispatch. simpl. apply insertById_present. eauto.
Qed.

(** C5: a lifecycle event whose job id the state does not have returns the
    state it was given. *)
Theorem lifecycle_unknown_id state action j :
  lifecycle action →
  target action = Some j →
  byId state !! j = None →
  dispatch state action = state.
Proof.
  intros Hlife Htarget Hnone.
  destruct action; simpl in *; try done; simplify_eq;
    unfold dispatch; simpl; by apply updateById_absent.
Qed.

(** C6: on a state that has a job at [j], [JOB_ERROR] makes that job
    [DONE] with status [ERROR] and the timestamp of the payload as its
    [endTimestamp], and leaves its results as they were. *)
Theorem JOB_ERROR_effect state j job (timestamp : Timestamp) :
  byId state !! j = Some job →
  ∃ job', byId (dispatch state (JOB_ERROR j timestamp)) !! j = Some job'
          ∧ JobState.running job' = JobRunning.DONE
          ∧ JobState.status job' = JobStatus.ERROR
          ∧ JobState.endTimestamp job' = Some timestamp
          ∧ JobState.results job' = JobState.results job.
Proof.
  intros Hjob. rewrite dispatch_lookup, Hjob. simpl.
  rewrite decide_True by done. eauto 6.
Qed.

(** C7, as the code has it: a job has no [endTimestamp] as long as no
    [FINISH_JOB] or [JOB_ERROR] has named it; every other event leaves the
    [endTimestamp] of an existing job as it is; and each [FINISH_JOB] or
    [JOB_ERROR] that names an existing job makes the timestamp of its
    payload the [endTimestamp], whether or not the job had one. *)
Theorem endTimestamp_history j :
  (∀ actions job,
     Forall (λ action, ¬ terminal_for j action) actions →
     byId (dispatchAll initialJobState actions) !! j = Some job →
     JobState.endTimestamp job = None)
  ∧ (∀ state action job,
       byId state !! j = Some job →
       ¬ terminal_for j action →
       ∃ job', byId (dispatch state action) !! j = Some job'
               ∧ JobState.endTimestamp job' = JobState.endTimestamp job)
  ∧ (∀ state action job,
       byId state !! j = Some job →
       terminal_for j action →
       ∃ job', byId (dispatch state action) !! j = Some job'
               ∧ JobState.endTimestamp job' = timestampOf action).
Proof.
  split; [|split].
  - intros actions job Hnames.
    apply (dispatchAll_not_terminal actions j initialJobState Hnames).
    intros job0. simpl. by rewrite lookup_empty.
  - intros state action job Hjob Hterm.
    destruct (dispatch_lookup_is_Some state action j) as [job' Hjob']; [by eauto|].
    exists job'. split; [done|].
    destruct (dispatch_not_terminal _ _ _ _ Hterm Hjob') as [(old & Hold & ->)|[Hnone _]];
      congruence.
  - intros state action job Hjob Hterm. unfold terminal_for in Hterm.
    apply andb_prop_elim in Hterm as [Hterm Htarget].
    apply bool_decide_unpack in Htarget.
    rewrite dispatch_lookup, Hjob, decide_True by done.
    destruct action; simpl in *; try done; eauto.
Qed.

(** C8: [CREATE] on a state that does not have the id yields a state with a
    new job at that id, [CREATING] in both [running] and [status], with no
    results and the timestamp of the event as [startTimestamp], and with the
    id at the end of [ids]. *)
Theorem CREATE_absent state id (dataset : string) (timestamp : Timestamp) :
  byId state !! id = None →
  ∃ job, byId (dispatch state (CREATE id dataset timestamp)) !! id = Some job
         ∧ JobState.id job = id
         ∧ JobState.dataset job = dataset
         ∧ JobState.running job = JobRunning.CREATING
         ∧ JobState.status job = JobStatus.CREATING
         ∧ JobState.results job = []
         ∧ JobState.startTimestamp job = timestamp
         ∧ JobState.endTimestamp job = None
         ∧ ids (dispatch state (CREATE id dataset timestamp)) = (ids state ++ [id])%list.
Proof.
  intros Hnone. exists (createdJob id dataset timestamp).
  rewrite dispatch_lookup, Hnone. simpl. rewrite decide_True by done.
  repeat (split; [done|]).
  unfold dispatch. simpl. unfold insertById. by rewrite Hnone.
Qed.

(** C9: after a [CREATE] of [X], events none of which names [X] leave the
    job stored at [X] as the [CREATE] left it. *)
Theorem other_ids_frame state X (dataset : string) (timestamp : Timestamp) actions :
  Forall (λ action, target action ≠ Some X) actions →
  is_Some (byId (dispatch state (CREATE X dataset timestamp)) !! X)
  ∧ byId (dispatchAll (dispatch state (CREATE X dataset timestamp)) actions) !! X
    = byId (dispatch state (CREATE X dataset timestamp)) !! X.
Proof.
  intros Hnames. split.
  - rewrite dispatch_lookup. simpl. rewrite decide_True by done. eauto.
  - by apply dispatchAll_lookup_ne.
Qed.

(** C10: called without a state, the reducer does what it does on the
    initial empty store; on an action it has no case for, it returns that
    store. *)
Theorem jobReducer_undefined :
  (∀ action, jobReducer None action = jobReducer (Some initialJobState) action)
  ∧ (∀ type : string,
       jobReducer None (OTHER type) = {| byId := (∅ : gmap string Job); ids := [] |}).
Proof. split; reflexivity. Qed.

End Properties.

(** ** More of the reducer: effects, frames and the shape of the store *)

Section Store.
Context {R P : Type} `{!Assign R P}.
Implicit Types (state : ById R) (id : string).

Lemma ById_eq state1 state2 :
  byId state1 = byId state2 → ids state1 = ids state2 → state1 = state2.
Proof. destruct state1, state2. simpl. by intros -> ->. Qed.

Lemma insertById_wellFormed state id (record : R) :
  wellFormed state → wellFormed (insertById state id record).
Proof.
  intros [Hnodup Hdom]. unfold insertById.
  destruct (byId state !! id) as [old|] eqn:Hid; [done|].
  split; simpl.
  - apply NoDup_app. split; [done|]. split; [|apply NoDup_singleton].
    intros k Hk ->%list_elem_of_singleton.
    apply Hdom in Hk. rewrite Hid in Hk. by destruct Hk.
  - intros k. rewrite elem_of_app, list_elem_of_singleton, lookup_insert, Hdom.
    case_decide as Hk.
    + subst k. split; [by eauto|]. intros _. by right.
    + split; [|by left]. intros [Hsome| ->]; [done|]. by destruct Hk.
Qed.

Lemma updateById_wellFormed state id (partialRecord : P) :
  wellFormed state → wellFormed (updateById state id partialRecord).
Proof.
  intros [Hnodup Hdom]. unfold updateById.
  destruct (byId state !! id) as [old|] eqn:Hid; [|done].
  split; simpl; [done|].
  intros k. rewrite lookup_insert, Hdom.
  case_decide; subst; [|done]. rewrite Hid. split; eauto.
Qed.

End Store.

Section Coverage.
Context {Timestamp Result : Type}.

Local Abbreviation Job := (JobState.t Timestamp Result).
Implicit Types (state : JobReducerState Timestamp Result).
Implicit Types (action : AllActions Timestamp Result).
Implicit Types (actions : list (AllActions Timestamp Result)).
Implicit Types (job old : Job) (j id : string).

(** X1: on a state that has a job at [j], [JOB_STARTED] makes that job
    [RUNNING] and [IN_PROGRESS] with the timestamp of the payload as its
    [startTimestamp]; its results, its [endTimestamp], its id and its
    dataset stay, and so does [ids]. *)
Theorem JOB_STARTED_effect state j job (timestamp : Timestamp) :
  byId state !! j = Some job →
  ∃ job', byId (dispatch state (JOB_STARTED j timestamp)) !! j = Some job'
          ∧ JobState.running job' = JobRunning.RUNNING
          ∧ JobState.status job' = JobStatus.IN_PROGRESS
          ∧ JobState.startTimestamp job' = timestamp
          ∧ JobState.results job' = JobState.results job
          ∧ JobState.endTimestamp job' = JobState.endTimestamp job
          ∧ JobState.id job' = JobState.id job
          ∧ JobState.dataset job' = JobState.dataset job
          ∧ ids (dispatch state (JOB_STARTED j timestamp)) = ids state.
Proof.
  intros Hjob. rewrite dispatch_lookup, Hjob. simpl.
  rewrite decide_True by done. eexists. split; [done|]. simpl.
  repeat (split; [done|]). apply updateById_ids.
Qed.

(** X2: on a state that has a job at [j], [FINISH_JOB] makes that job [DONE]
    and [SUCCESS] with the results and the timestamp of the payload as its
    results and its [endTimestamp]; its [startTimestamp], its id and its
    dataset stay, and so does [ids]. *)
Theorem FINISH_JOB_effect state j job (timestamp : Timestamp) (rs : list Result) :
  byId state !! j = Some job →
  ∃ job', byId (dispatch state (FINISH_JOB j timestamp rs)) !! j = Some job'
          ∧ JobState.running job' = JobRunning.DONE
          ∧ JobState.status job' = JobStatus.SUCCESS
          ∧ JobState.results job' = rs
          ∧ JobState.endTimestamp job' = Some timestamp
          ∧ JobState.startTimestamp job' = JobState.startTimestamp job
          ∧ JobState.id job' = JobState.id job
          ∧ JobState.dataset job' = JobState.dataset job
          ∧ ids (dispatch state (FINISH_JOB j timestamp rs)) = ids state.
Proof.
  intros Hjob. rewrite dispatch_lookup, Hjob. simpl.
  rewrite decide_True by done. eexists. split; [done|]. simpl.
  repeat (split; [done|]). apply updateById_ids.
Qed.

(** X3: the actions that the [switch] has no case for can be dropped from
    any stream of actions: the store at the end is the same. *)
Theorem unrecognized_dropped actions : ∀ state,
  dispatchAll state actions = dispatchAll state (filter (λ action, recognized action) actions).
Proof.
  induction actions as [|action actions IH]; intros state; [done|].
  destruct action; simpl; apply IH.
Qed.

Lemma dispatch_wellFormed state action :
  wellFormed state → wellFormed (dispatch state action).
Proof.
  intros Hwf. destruct action; unfold dispatch; simpl;
    first [by apply insertById_wellFormed | by apply updateById_wellFormed | done].
Qed.

(** X4: the reducer keeps a store well formed: if [ids] lists the keys of
    [byId], each once, it still does after any stream of actions. *)
Theorem dispatchAll_wellFormed actions : ∀ state,
  wellFormed state → wellFormed (dispatchAll state actions).
Proof.
  induction actions as [|action actions IH]; intros state Hwf; [done|].
  simpl. apply IH. by apply dispatch_wellFormed.
Qed.

Lemma dispatch_key_is_id state action :
  (∀ j job, byId state !! j = Some job → JobState.id job = j) →
  ∀ j job, byId (dispatch state action) !! j = Some job → JobState.id job = j.
Proof.
  intros Hinv j job. rewrite dispatch_lookup.
  case_decide as Htarget; [|apply Hinv].
  destruct (byId state !! j) as [old|] eqn:Hold.
  - specialize (Hinv j old Hold).
    destruct action; simpl in *; intros [= <-]; simpl; congruence.
  - destruct action; simpl in *; intros [= <-]; simpl; congruence.
Qed.

(** X5: in every store built from the empty one, the job under key [j] has
    [j] in its [id] field. *)
Theorem key_is_id actions j job :
  byId (dispatchAll initialJobState actions) !! j = Some job → JobState.id job = j.
Proof.
  revert j job. unfold dispatchAll.
  induction actions as [|action actions IH] using rev_ind; intros j job.
  - simpl. by rewrite lookup_empty.
  - rewrite foldl_app. simpl. by apply dispatch_key_is_id.
Qed.

Lemma dispatch_identity state action j job :
  byId state !! j = Some job →
  ∃ job', byId (dispatch state action) !! j = Some job'
          ∧ JobState.id job' = JobState.id job
          ∧ JobState.dataset job' = JobState.dataset job.
Proof.
  intros Hjob. rewrite dispatch_lookup, Hjob.
  case_decide; [|by eauto]. destruct action; simpl; eauto.
Qed.

(** X6: a job is never removed, and no stream of actions changes its id or
    its dataset. *)
Theorem identity_kept actions : ∀ state j job,
  byId state !! j = Some job →
  ∃ job', byId (dispatchAll state actions) !! j = Some job'
          ∧ JobState.id job' = JobState.id job
          ∧ JobState.dataset job' = JobState.dataset job.
Proof.
  induction actions as [|action actions IH]; intros state j job Hjob; [by eauto|].
  destruct (dispatch_identity state action j job Hjob) as (job1 & Hjob1 & Hid & Hdataset).
  destruct (IH _ _ _ Hjob1) as (job' & Hjob' & Hid' & Hdataset').
  exists job'. simpl. split; [done|]. split; congruence.
Qed.

Lemma dispatch_dom state action :
  dom (byId (dispatch state action)) =
    dom (byId state) ∪ from_option singleton ∅ (createdId action).
Proof.
  apply set_eq. intros k.
  rewrite elem_of_union, !elem_of_dom.
  destruct (decide (target action = Some k)) as [Htarget|Htarget].
  - rewrite dispatch_lookup, decide_True by done.
    destruct action; simpl in *; simplify_eq;
      rewrite ?elem_of_singleton, ?elem_of_empty; destruct (byId state !! k); simpl;
      rewrite ?is_Some_alt; tauto.
  - rewrite dispatch_lookup_ne by done.
    destruct action; simpl in *; rewrite ?elem_of_singleton, ?elem_of_empty;
      (split; [tauto|]); (intros [Hk|Hk]; [done|]); try done; by simplify_eq.
Qed.

(** X7: the jobs in the store after a stream of actions are those it had
    before and those named by a [CREATE] of the stream; the lifecycle events
    and the other actions add none. *)
Theorem dispatchAll_dom actions : ∀ state,
  dom (byId (dispatchAll state actions)) =
    dom (byId state) ∪ list_to_set (omap createdId actions).
Proof.
  induction actions as [|action actions IH]; intros state; simpl.
  - by rewrite union_empty_r_L.
  - rewrite IH, dispatch_dom. destruct (createdId action); simpl.
    + by rewrite (assoc_L (∪)).
    + by rewrite union_empty_r_L.
Qed.

(** What a dispatch appends to [ids]: the id of a [CREATE] that the store
    does not have yet, and nothing else. *)
Lemma dispatch_ids state action :
  ids (dispatch state action) =
    (ids state ++
       match createdId action with
       | Some id => match byId state !! id with Some _ => [] | None => [id] end
       | None => []
       end)%list.
Proof.
  destruct action; unfold dispatch; simpl;
    rewrite ?updateById_ids, ?app_nil_r; try done.
  unfold insertById. destruct (byId state !! id); simpl; by rewrite ?app_nil_r.
Qed.

(** X8: two actions that do not name the same job can be dispatched in
    either order: [byId] is the same, and so is the whole store unless both
    are [CREATE]s (whose ids then come in the order of the dispatches). *)
Theorem different_jobs_commute state action1 action2 :
  (∀ j, target action1 = Some j → target action2 ≠ Some j) →
  byId (dispatch (dispatch state action1) action2)
    = byId (dispatch (dispatch state action2) action1)
  ∧ (createdId action1 = None ∨ createdId action2 = None →
     dispatch (dispatch state action1) action2
       = dispatch (dispatch state action2) action1).
Proof.
  intros Hnames.
  assert (byId (dispatch (dispatch state action1) action2)
            = byId (dispatch (dispatch state action2) action1)) as HbyId.
  { apply map_eq. intros k.
    destruct (decide (target action1 = Some k)) as [H1|H1].
    - rewrite (dispatch_lookup_ne _ action2 k) by auto.
      rewrite !(dispatch_lookup _ action1 k).
      by rewrite (dispatch_lookup_ne _ action2 k) by auto.
    - rewrite (dispatch_lookup_ne _ action1 k) by done.
      rewrite !(dispatch_lookup _ action2 k).
      by rewrite (dispatch_lookup_ne _ action1 k) by done. }
  split; [done|]. intros Hcreate. apply ById_eq; [done|].
  rewrite !dispatch_ids, <- !(assoc_L (++)). f_equal.
  destruct (createdId action1) as [id1|] eqn:Hid1,
           (createdId action2) as [id2|] eqn:Hid2; simpl;
    try (by destruct Hcreate); rewrite ?app_nil_r; try done.
  - rewrite dispatch_lookup_ne; [done|].
    destruct action1; simplify_eq/=. intros Hsame. by apply (Hnames id1).
  - rewrite dispatch_lookup_ne; [done|].
    destruct action2; simplify_eq/=. intros Hsame. by apply (Hnames id2).
Qed.

(** X9: every action is idempotent: dispatching it a second time, right
    after the first, changes nothing. *)
Theorem dispatch_idempotent state action :
  dispatch (dispatch state action) action = dispatch state action.
Proof.
  apply ById_eq.
  - apply map_eq. intros k. rewrite !(dispatch_lookup _ action k).
    case_decide; [|done].
    destruct action, (byId state !! k); simplify_eq/=; done.
  - rewrite (dispatch_ids (dispatch state action)).
    destruct (createdId action) as [id|] eqn:Hid; [|by rewrite app_nil_r].
    rewrite dispatch_lookup.
    destruct action; simplify_eq/=. rewrite decide_True by done.
    by rewrite app_nil_r.
Qed.

(** X10: [ids] only grows at its end: after a stream of actions it is the
    old [ids] followed by ids of [CREATE]s of the stream, in their order. *)
Theorem ids_append_only actions : ∀ state,
  ∃ new, ids (dispatchAll state actions) = (ids state ++ new)%list
         ∧ new `sublist_of` omap createdId actions.
Proof.
  induction actions as [|action actions IH]; intros state; simpl.
  - exists []. by rewrite app_nil_r.
  - destruct (IH (dispatch state action)) as (new & Hids & Hsub).
    rewrite Hids, dispatch_ids, <- (assoc_L (++)).
    eexists. split; [done|].
    destruct (createdId action) as [id|]; simpl; [|done].
    destruct (byId state !! id); simpl; [by apply sublist_cons|by apply sublist_skip].
Qed.

(** X11: called without a state, the reducer returns the empty store for
    every action but [CREATE], and for a [CREATE] the store that has the new
    job and nothing else. *)
Theorem jobReducer_undefined_cases :
  (∀ action, createdId action = None → jobReducer None action = initialJobState)
  ∧ (∀ id (dataset : string) (timestamp : Timestamp),
       jobReducer None (CREATE id dataset timestamp)
         = {| byId := {[ id := createdJob (Result := Result) id dataset timestamp ]};
              ids := [id] |}).
Proof.
  split.
  - intros action Hcreate. destruct action; simplify_eq/=; try done;
      by apply updateById_absent.
  - intros id dataset timestamp. reflexivity.
Qed.

(** X12: what one dispatch can change in a job that exists: the
    [startTimestamp] only by a [JOB_STARTED] naming the job, the results
    only by a [TASK_RESULT] or a [FINISH_JOB] naming it, [running] and
    [status] only by a [JOB_STARTED], a [FINISH_JOB] or a [JOB_ERROR] naming
    it. *)
Theorem fields_frame state action j job :
  byId state !! j = Some job →
  ∃ job', byId (dispatch state action) !! j = Some job'
    ∧ (JobState.startTimestamp job' ≠ JobState.startTimestamp job →
       ∃ t, action = JOB_STARTED j t)
    ∧ (JobState.results job' ≠ JobState.results job →
       (∃ rs, action = TASK_RESULT j rs) ∨ (∃ t rs, action = FINISH_JOB j t rs))
    ∧ (JobState.running job' ≠ JobState.running job
       ∨ JobState.status job' ≠ JobState.status job →
       (∃ t, action = JOB_STARTED j t) ∨ (∃ t rs, action = FINISH_JOB j t rs)
       ∨ (∃ t, action = JOB_ERROR j t)).
Proof.
  intros Hjob. rewrite dispatch_lookup, Hjob.
  case_decide as Htarget.
  - destruct action; simplify_eq/=; eexists; (split; [done|]); simpl;
      repeat split; intros; try tauto; eauto 6.
  - exists job. split; [done|]. repeat split; intros; tauto.
Qed.

(** X13: the job at [j] after a stream of actions is the job that the
    actions naming [j] alone would have made: the others can be left out. *)
Theorem only_own_events actions j : ∀ state,
  byId (dispatchAll state actions) !! j
    = byId (dispatchAll state (filter (λ action, target action = Some j) actions)) !! j.
Proof.
  assert (∀ state1 state2, byId state1 !! j = byId state2 !! j →
            byId (dispatchAll state1 actions) !! j
              = byId (dispatchAll state2
                        (filter (λ action, target action = Some j) actions)) !! j)
    as Hgen; [|by auto].
  induction actions as [|action actions IH]; intros state1 state2 Hsame; [done|].
  destruct (decide (target action = Some j)) as [Htarget|Htarget].
  - rewrite filter_cons_True by done. simpl. apply IH.
    by rewrite !(dispatch_lookup _ action j), Hsame.
  - rewrite filter_cons_False by done. simpl. apply IH.
    by rewrite dispatch_lookup_ne.
Qed.

End Coverage.

(** ** The scenarios of the specification *)

Lemma recognized_scenarioD : Forall recognized scenarioD.
Proof. vm_compute. repeat constructor. Defined.

Lemma lookup_scenarioC : byId (dispatchAll initialJobState scenarioC) !! "j1" = Some jobC.
Proof. reflexivity. Defined.

Lemma lookup_scenarioD : byId (dispatchAll initialJobState scenarioD) !! "j1" = Some jobD.
Proof. reflexivity. Defined.

(** Scenario D ends in the store [storeD]. *)
Lemma dispatchAll_scenarioD : dispatchAll initialJobState scenarioD = storeD.
Proof. reflexivity. Qed.

(** C1 fails as stated: after scenario D and a late [JOB_STARTED], job j1 has
    an [endTimestamp] and is not [DONE]. *)
Lemma late_start_keeps_endTimestamp :
  Forall recognized lateStart
  ∧ byId (dispatchAll initialJobState lateStart) !! "j1" = Some jobLate
  ∧ ¬ (is_Some (JobState.endTimestamp jobLate)
       ↔ JobState.running jobLate = JobRunning.DONE).
Proof.
  split; [vm_compute; repeat constructor|]. split; [reflexivity|].
  intros [Hdone _]. assert (is_Some (JobState.endTimestamp jobLate)) as Hend by (simpl; eauto).
  apply Hdone in Hend. discriminate Hend.
Qed.

Lemma endTimestamp_of_running_witness :
  Forall recognized scenarioD
  ∧ byId (dispatchAll initialJobState scenarioD) !! "j1" = Some jobD
  ∧ (JobState.running jobD = JobRunning.DONE → is_Some (JobState.endTimestamp jobD))
  ∧ (JobState.running jobD = JobRunning.CREATING → JobState.endTimestamp jobD = None).
Proof.
  split; [exact recognized_scenarioD|]. split; [exact lookup_scenarioD|].
  exact (endTimestamp_of_running scenarioD "j1" jobD recognized_scenarioD lookup_scenarioD).
Defined.

Lemma running_status_pairs_witness :
  Forall recognized scenarioD
  ∧ byId (dispatchAll initialJobState scenarioD) !! "j1" = Some jobD
  ∧ ((JobState.running jobD, JobState.status jobD)
       = (JobRunning.CREATING, JobStatus.CREATING)
     ∨ (JobState.running jobD, JobState.status jobD)
       = (JobRunning.RUNNING, JobStatus.IN_PROGRESS)
     ∨ (JobState.running jobD, JobState.status jobD)
       = (JobRunning.DONE, JobStatus.SUCCESS)
     ∨ (JobState.running jobD, JobState.status jobD)
       = (JobRunning.DONE, JobStatus.ERROR)).
Proof.
  split; [exact recognized_scenarioD|]. split; [exact lookup_scenarioD|].
  exact (running_status_pairs scenarioD "j1" jobD recognized_scenarioD lookup_scenarioD).
Defined.

(** Scenario C: two [TASK_RESULT]s on the running job of scenario B. *)
Lemma TASK_RESULT_replaces_witness :
  let state := dispatchAll initialJobState scenarioB in
  let job := {| JobState.id := "j1";
                JobState.dataset := "d1";
                JobState.running := JobRunning.RUNNING;
                JobState.status := JobStatus.IN_PROGRESS;
                JobState.results := [];
                JobState.startTimestamp := 105%Z;
                JobState.endTimestamp := None |} in
  byId state !! "j1" = Some job
  ∧ (∃ job1, byId (dispatch state (TASK_RESULT "j1" ["r1"])) !! "j1" = Some job1
             ∧ JobState.results job1 = ["r1"]
             ∧ JobState.running job1 = JobState.running job
             ∧ JobState.status job1 = JobState.status job)
  ∧ (∃ job2, byId (dispatch (dispatch state (TASK_RESULT "j1" ["r1"]))
                            (TASK_RESULT "j1" ["r1"; "r2"])) !! "j1" = Some job2
             ∧ JobState.results job2 = ["r1"; "r2"]
             ∧ JobState.running job2 = JobState.running job
             ∧ JobState.status job2 = JobState.status job).
Proof.
  intros state job. split; [reflexivity|].
  apply (TASK_RESULT_replaces state "j1" job ["r1"] ["r1"; "r2"]). reflexivity.
Defined.

Lemma CREATE_twice_witness :
  byId storeD !! "j1" = Some jobD
  ∧ dispatch (dispatch storeD (CREATE "j1" "d1" 100%Z)) (CREATE "j1" "d9" 900%Z)
    = dispatch storeD (CREATE "j1" "d1" 100%Z)
  ∧ dispatch storeD (CREATE "j1" "d9" 900%Z) = storeD.
Proof.
  assert (byId storeD !! "j1" = Some jobD) as Hjob by reflexivity.
  destruct (CREATE_twice storeD "j1" "d1" "d9" 100%Z 900%Z) as [Htwice Hpresent].
  split; [exact Hjob|]. split; [exact Htwice|]. exact (Hpresent jobD Hjob).
Defined.

(** Scenario E: [JOB_ERROR] for a job that was never created. *)
Lemma lifecycle_unknown_id_witness :
  let state : JobReducerState Z string := initialJobState in
  let action : AllActions Z string := JOB_ERROR "j1" 150%Z in
  lifecycle action
  ∧ target action = Some "j1"
  ∧ byId state !! "j1" = None
  ∧ dispatch state action = state.
Proof.
  intros state action.
  assert (lifecycle action) as Hlife by exact I.
  assert (target action = Some "j1") as Htarget by reflexivity.
  assert (byId state !! "j1" = None) as Hnone by reflexivity.
  repeat (split; [assumption|]).
  exact (lifecycle_unknown_id state action "j1" Hlife Htarget Hnone).
Defined.

Lemma JOB_ERROR_effect_witness :
  let state := dispatchAll initialJobState scenarioC in
  byId state !! "j1" = Some jobC
  ∧ ∃ job', byId (dispatch state (JOB_ERROR "j1" 150%Z)) !! "j1" = Some job'
            ∧ JobState.running job' = JobRunning.DONE
            ∧ JobState.status job' = JobStatus.ERROR
            ∧ JobState.endTimestamp job' = Some 150%Z
            ∧ JobState.results job' = JobState.results jobC.
Proof.
  intros state. split; [exact lookup_scenarioC|].
  exact (JOB_ERROR_effect state "j1" jobC 150%Z lookup_scenarioC).
Defined.

(** C7 fails as stated: job j1 of scenario D has reached a terminal state
    with [endTimestamp] 200, and a later [JOB_ERROR] makes it 300. *)
Lemma second_terminal_event_moves_endTimestamp :
  let state := dispatchAll initialJobState scenarioD in
  Forall recognized scenarioD
  ∧ byId state !! "j1" = Some jobD
  ∧ JobState.endTimestamp jobD = Some 200%Z
  ∧ ∃ job', byId (dispatch state (JOB_ERROR "j1" 300%Z)) !! "j1" = Some job'
            ∧ JobState.endTimestamp job' = Some 300%Z
            ∧ JobState.endTimestamp job' ≠ JobState.endTimestamp jobD.
Proof.
  intros state. split; [exact recognized_scenarioD|].
  split; [reflexivity|]. split; [reflexivity|].
  eexists. split; [reflexivity|]. split; [reflexivity|]. discriminate.
Qed.

Lemma endTimestamp_history_witness :
  (Forall (λ action, ¬ terminal_for "j1" action) scenarioC
   ∧ byId (dispatchAll initialJobState scenarioC) !! "j1" = Some jobC
   ∧ JobState.endTimestamp jobC = None)
  ∧ (byId storeD !! "j1" = Some jobD
     ∧ ¬ terminal_for "j1" (JOB_STARTED "j1" 300%Z : AllActions Z string)
     ∧ ∃ job', byId (dispatch storeD (JOB_STARTED "j1" 300%Z)) !! "j1" = Some job'
               ∧ JobState.endTimestamp job' = JobState.endTimestamp jobD)
  ∧ (byId storeD !! "j1" = Some jobD
     ∧ terminal_for "j1" (JOB_ERROR "j1" 300%Z : AllActions Z string)
     ∧ ∃ job', byId (dispatch storeD (JOB_ERROR "j1" 300%Z)) !! "j1" = Some job'
               ∧ JobState.endTimestamp job' = Some 300%Z).
Proof.
  destruct (endTimestamp_history (Timestamp := Z) (Result := string) "j1")
    as (Hbefore & Hother & Hterminal).
  assert (Forall (λ action : AllActions Z string, ¬ terminal_for "j1" action) scenarioC)
    as Hnames by (vm_compute; repeat constructor; intros []).
  assert (byId storeD !! "j1" = Some jobD) as Hjob by reflexivity.
  assert (¬ terminal_for "j1" (JOB_STARTED "j1" 300%Z : AllActions Z string))
    as Hstart by (intros []).
  assert (terminal_for "j1" (JOB_ERROR "j1" 300%Z : AllActions Z string))
    as Herror by exact I.
  split; [|split].
  - split; [exact Hnames|]. split; [exact lookup_scenarioC|].
    exact (Hbefore scenarioC jobC Hnames lookup_scenarioC).
  - split; [exact Hjob|]. split; [exact Hstart|].
    exact (Hother storeD (JOB_STARTED "j1" 300%Z) jobD Hjob Hstart).
  - split; [exact Hjob|]. split; [exact Herror|].
    exact (Hterminal storeD (JOB_ERROR "j1" 300%Z) jobD Hjob Herror).
Defined.

(** Scenario A: one [CREATE] on the empty store. *)
Lemma CREATE_absent_witness :
  let state : JobReducerState Z string := initialJobState in
  byId state !! "j1" = None
  ∧ ∃ job, byId (dispatch state (CREATE "j1" "d1" 100%Z)) !! "j1" = Some job
           ∧ JobState.id job = "j1"
           ∧ JobState.dataset job = "d1"
           ∧ JobState.running job = JobRunning.CREATING
           ∧ JobState.status job = JobStatus.CREATING
           ∧ JobState.results job = []
           ∧ JobState.startTimestamp job = 100%Z
           ∧ JobState.endTimestamp job = None
           ∧ ids (dispatch state (CREATE "j1" "d1" 100%Z)) = ["j1"].
Proof.
  intros state. split; [reflexivity|].
  apply (CREATE_absent state "j1" "d1" 100%Z). reflexivity.
Defined.

Lemma other_ids_frame_witness :
  let created : JobReducerState Z string :=
    dispatch initialJobState (CREATE "j1" "d1" 100%Z) in
  Forall (λ action, target action ≠ Some "j1") secondJob
  ∧ is_Some (byId created !! "j1")
  ∧ byId (dispatchAll created secondJob) !! "j1" = byId created !! "j1".
Proof.
  intros created.
  assert (Forall (λ action, target action ≠ Some "j1") secondJob) as Hnames
    by (repeat constructor; discriminate).
  split; [exact Hnames|].
  exact (other_ids_frame initialJobState "j1" "d1" 100%Z secondJob Hnames).
Defined.

(** ** Runs for the effects, the frames and the shape of the store *)

(** Scenario B after scenario D: the late [JOB_STARTED] of [lateStart]. *)
Lemma JOB_STARTED_effect_witness :
  byId storeD !! "j1" = Some jobD
  ∧ ∃ job', byId (dispatch storeD (JOB_STARTED "j1" 300%Z)) !! "j1" = Some job'
            ∧ JobState.running job' = JobRunning.RUNNING
            ∧ JobState.status job' = JobStatus.IN_PROGRESS
            ∧ JobState.startTimestamp job' = 300%Z
            ∧ JobState.results job' = JobState.results jobD
            ∧ JobState.endTimestamp job' = JobState.endTimestamp jobD
            ∧ JobState.id job' = JobState.id jobD
            ∧ JobState.dataset job' = JobState.dataset jobD
            ∧ ids (dispatch storeD (JOB_STARTED "j1" 300%Z)) = ids storeD.
Proof.
  assert (byId storeD !! "j1" = Some jobD) as Hjob by reflexivity.
  split; [exact Hjob|].
  exact (JOB_STARTED_effect storeD "j1" jobD 300%Z Hjob).
Defined.

(** Scenario D: [FINISH_JOB] on the store of scenario C. *)
Lemma FINISH_JOB_effect_witness :
  let state := dispatchAll initialJobState scenarioC in
  byId state !! "j1" = Some jobC
  ∧ ∃ job', byId (dispatch state (FINISH_JOB "j1" 200%Z ["r1"; "r2"; "r3"])) !! "j1"
              = Some job'
            ∧ JobState.running job' = JobRunning.DONE
            ∧ JobState.status job' = JobStatus.SUCCESS
            ∧ JobState.results job' = ["r1"; "r2"; "r3"]
            ∧ JobState.endTimestamp job' = Some 200%Z
            ∧ JobState.startTimestamp job' = JobState.startTimestamp jobC
            ∧ JobState.id job' = JobState.id jobC
            ∧ JobState.dataset job' = JobState.dataset jobC
            ∧ ids (dispatch state (FINISH_JOB "j1" 200%Z ["r1"; "r2"; "r3"])) = ids state.
Proof.
  intros state. split; [exact lookup_scenarioC|].
  exact (FINISH_JOB_effect state "j1" jobC 200%Z ["r1"; "r2"; "r3"] lookup_scenarioC).
Defined.

Lemma dispatchAll_wellFormed_witness :
  let state : JobReducerState Z string := initialJobState in
  wellFormed state ∧ wellFormed (dispatchAll state (lateStart ++ secondJob)).
Proof.
  intros state.
  assert (wellFormed state) as Hwf.
  { split; simpl; [apply NoDup_nil_2|].
    intros id. rewrite lookup_empty. split; [by intros ?%elem_of_nil|by intros []]. }
  split; [exact Hwf|].
  exact (dispatchAll_wellFormed (lateStart ++ secondJob) state Hwf).
Defined.

Lemma key_is_id_witness :
  byId (dispatchAll initialJobState lateStart) !! "j1" = Some jobLate
  ∧ JobState.id jobLate = "j1".
Proof.
  assert (byId (dispatchAll initialJobState lateStart) !! "j1" = Some jobLate) as Hjob
    by reflexivity.
  split; [exact Hjob|]. exact (key_is_id lateStart "j1" jobLate Hjob).
Defined.

Lemma identity_kept_witness :
  let state : JobReducerState Z string := dispatchAll initialJobState scenarioA in
  let job := createdJob "j1" "d1" 100%Z in
  byId state !! "j1" = Some job
  ∧ ∃ job', byId (dispatchAll state restOfLife) !! "j1" = Some job'
            ∧ JobState.id job' = JobState.id job
            ∧ JobState.dataset job' = JobState.dataset job.
Proof.
  intros state job.
  assert (byId state !! "j1" = Some job) as Hjob by reflexivity.
  split; [exact Hjob|]. exact (identity_kept restOfLife state "j1" job Hjob).
Defined.

Lemma different_jobs_commute_witness :
  let action1 : AllActions Z string := JOB_ERROR "j1" 300%Z in
  let action2 : AllActions Z string := CREATE "j2" "d2" 101%Z in
  (∀ j, target action1 = Some j → target action2 ≠ Some j)
  ∧ (createdId action1 = None ∨ createdId action2 = None)
  ∧ byId (dispatch (dispatch storeD action1) action2)
      = byId (dispatch (dispatch storeD action2) action1)
  ∧ dispatch (dispatch storeD action1) action2
      = dispatch (dispatch storeD action2) action1.
Proof.
  intros action1 action2.
  assert (∀ j, target action1 = Some j → target action2 ≠ Some j) as Hnames
    by (intros j [= <-]; discriminate).
  assert (createdId action1 = None ∨ createdId action2 = None) as Hcreate
    by (left; reflexivity).
  destruct (different_jobs_commute storeD action1 action2 Hnames) as [HbyId Hstate].
  split; [exact Hnames|]. split; [exact Hcreate|]. split; [exact HbyId|].
  exact (Hstate Hcreate).
Defined.

(** Scenario E with no store at all. *)
Lemma jobReducer_undefined_cases_witness :
  let action : AllActions Z string := JOB_ERROR "j1" 150%Z in
  createdId action = None ∧ jobReducer None action = initialJobState.
Proof.
  intros action.
  assert (createdId action = None) as Hcreate by reflexivity.
  split; [exact Hcreate|].
  exact (proj1 (jobReducer_undefined_cases (Timestamp := Z) (Result := string))
           action Hcreate).
Defined.

Lemma fields_frame_witness :
  let action : AllActions Z string := TASK_RESULT "j1" ["r9"] in
  byId storeD !! "j1" = Some jobD
  ∧ ∃ job', byId (dispatch storeD action) !! "j1" = Some job'
    ∧ (JobState.startTimestamp job' ≠ JobState.startTimestamp jobD →
       ∃ t, action = JOB_STARTED "j1" t)
    ∧ (JobState.results job' ≠ JobState.results jobD →
       (∃ rs, action = TASK_RESULT "j1" rs) ∨ (∃ t rs, action = FINISH_JOB "j1" t rs))
    ∧ (JobState.running job' ≠ JobState.running jobD
       ∨ JobState.status job' ≠ JobState.status jobD →
       (∃ t, action = JOB_STARTED "j1" t) ∨ (∃ t rs, action = FINISH_JOB "j1" t rs)
       ∨ (∃ t, action = JOB_ERROR "j1" t)).
Proof.
  intros action.
  assert (byId storeD !! "j1" = Some jobD) as Hjob by reflexivity.
  split; [exact Hjob|]. exact (fields_frame storeD action "j1" jobD Hjob).
Defined.
